(** * Vector similarity search of the "Document Embeddings and Vector DB" notebook

    A shallow embedding of the notebook cell that defines [embed_documents],
    [embed_query] and [retrieve_relevant_documents], over IEEE binary64
    numbers (the kernel's primitive floats, which is what numpy's float64
    arrays hold), together with the properties of the retrieval function. *)

From Stdlib Require Import Reals Lra.
From Stdlib Require Import String ZArith Lia Bool Floats List Permutation Sorted.
Import ListNotations.

Set Implicit Arguments.

(** ** numpy arrays and the operations the cell uses *)

(** The arrays that reach the cell are one-dimensional (shape [(n,)]) or
    two-dimensional (shape [(n, ncols)]); a two-dimensional array keeps its
    column count even when it has no row. *)
Inductive ndarray : Type :=
| Arr1 (v : list float)
| Arr2 (ncols : nat) (rows : list (list float)).

(** The exceptions numpy and Python raise on the paths of the cell. *)
Inductive error : Type :=
| ValueError   (* matmul: mismatch in the core dimension; ragged np.array *)
| AxisError    (* np.linalg.norm(..., axis = 1) on an array without axis 1 *)
| IndexError.  (* index out of range; too many indices *)

(** One entry of the returned list: [{'document': ..., 'score': ...}]. *)
Record entry : Type := { document : string; score : float }.

(** A two-dimensional array is well formed when every row has [ncols] items. *)
Definition shape_ok (a : ndarray) : Prop :=
  match a with
  | Arr1 _ => True
  | Arr2 D rows => Forall (fun r => length r = D) rows
  end.

Module Np.

(** [a @ b] on two vectors: the products are accumulated from 0, left to
    right, each product and each sum rounded. numpy's kernels may fuse the
    multiplication with the addition or add in another order, so the last
    bit of a sum can differ; no property below depends on it, and the
    sample runs only add exactly. *)
Definition dot (a b : list float) : float :=
  fold_left (fun acc p => (acc + fst p * snd p)%float) (combine a b) 0%float.

(** [np.linalg.norm]: the square root of the sum of squares, with no
    scaling (large items overflow, small ones underflow). numpy sums the
    squares of a row (axis 1) and of a vector by different kernels, which
    can differ in the last bit; the one definition stands for both. *)
Definition norm (a : list float) : float := sqrt (dot a a).

(** numpy's order on floats when sorting: [a < b || (b != b && a == a)],
    which puts NaN after every number. *)
Definition lt (a b : float) : bool :=
  ((a <? b) || (negb (b =? b) && (a =? a)))%float.

Section Sort.
Variable A : Type.
Variable before : A -> A -> bool.

Fixpoint insert (x : A) (l : list A) : list A :=
  match l with
  | [] => [x]
  | y :: l' => if before y x then y :: insert x l' else x :: y :: l'
  end.

(** Stable insertion sort. *)
Definition isort (l : list A) : list A := fold_right insert [] l.
End Sort.

(** [np.argsort(a)]: the positions of [a] in ascending order of value.
    numpy's default kind promises no order among equal values, and the
    order differs between numpy builds; this definition is one of the sorts
    the promise allows, the one that keeps equal values in their original
    order. What depends on the order of equal values is stated over an
    arbitrary sort, with [retrieve_relevant_documents_by]. *)
Definition argsort (a : list float) : list nat :=
  isort (fun i j => lt (nth i a nan) (nth j a nan)) (seq 0 (length a)).

(** Python's [l[:k]]: the first [k] items, or all but the last [-k] when
    [k] is negative. *)
Definition slice_to (A : Type) (k : Z) (l : list A) : list A :=
  if (0 <=? k)%Z then firstn (Z.to_nat k) l
  else firstn (length l - Z.to_nat (- k)) l.

(** [np.array] of a list of rows: an empty list gives the empty
    one-dimensional array, rows of one length a two-dimensional one. *)
Definition array (l : list (list float)) : error + ndarray :=
  match l with
  | [] => inr (Arr1 [])
  | r :: _ =>
      if forallb (fun r' => Nat.eqb (length r') (length r)) l
      then inr (Arr2 (length r) l)
      else inl ValueError
  end.

(** [a[0,:]]. *)
Definition index_0_all (a : ndarray) : error + list float :=
  match a with
  | Arr1 _ => inl IndexError
  | Arr2 _ [] => inl IndexError
  | Arr2 _ (r :: _) => inr r
  end.

End Np.

(** ** The state the retrieval runs against

    [sample_docs] is the notebook's global list; [doc_embeddings] is the
    array object the caller hands over as first argument (Python passes the
    reference, so the callee works on the caller's object). *)
Record index : Type := {
  sample_docs : list string;
  doc_embeddings : ndarray
}.

(** State and exception monad of the cell's functions. *)
Definition M (A : Type) : Type := index -> index * (error + A).

Definition ret (A : Type) (x : A) : M A := fun s => (s, inr x).

Definition raise (A : Type) (e : error) : M A := fun s => (s, inl e).

Definition bind (A B : Type) (m : M A) (f : A -> M B) : M B :=
  fun s =>
    match m s with
    | (s', inl e) => (s', inl e)
    | (s', inr x) => f x s'
    end.

Definition gets (A : Type) (f : index -> A) : M A := fun s => (s, inr (f s)).

Notation "x <- m ;; f" := (bind m (fun x => f))
  (at level 61, m at next level, right associativity).

Fixpoint mapM (A B : Type) (f : A -> M B) (l : list A) : M (list B) :=
  match l with
  | [] => ret []
  | x :: l' => y <- f x ;; ys <- mapM f l' ;; ret (y :: ys)
  end.

(** [l[i]] for a non-negative [i]. *)
Definition getitem (A : Type) (l : list A) (i : nat) : M A :=
  match nth_error l i with
  | Some x => ret x
  | None => raise _ IndexError
  end.

(** ** The cell *)

(** [(doc_embeddings @ query_embedding) /
     (np.linalg.norm(doc_embeddings, axis = 1).T * np.linalg.norm(query_embedding))]
    on the rows of a two-dimensional array. *)
Definition cosine (row query_embedding : list float) : float :=
  (Np.dot row query_embedding / (Np.norm row * Np.norm query_embedding))%float.

Definition cosine_similarities (rows : list (list float))
    (query_embedding : list float) : list float :=
  map (fun row => cosine row query_embedding) rows.

(** [sim_scores[::-1][:k]] where [sim_scores = np.argsort(cosine_similarities)]. *)
Definition top_k (cs : list float) (k : Z) : list nat :=
  Np.slice_to k (rev (Np.argsort cs)).

(** [{'document' : sample_docs[i], 'score' : cosine_similarities[i]}]. *)
Definition entry_at (cs : list float) (i : nat) : M entry :=
  docs <- gets sample_docs ;;
  d <- getitem docs i ;;
  ret {| document := d; score := nth i cs nan |}.

(** [retrieve_relevant_documents(doc_embeddings, query_embedding, k)].
    The matrix product is evaluated first and raises on a length mismatch;
    on a one-dimensional [doc_embeddings] it yields a scalar and the norm
    along axis 1 raises next. *)
Definition retrieve_relevant_documents (query_embedding : list float) (k : Z)
    : M (list entry) :=
  a <- gets doc_embeddings ;;
  match a with
  | Arr1 v =>
      if Nat.eqb (length v) (length query_embedding)
      then raise _ AxisError
      else raise _ ValueError
  | Arr2 D rows =>
      if Nat.eqb D (length query_embedding)
      then
        let cs := cosine_similarities rows query_embedding in
        mapM (entry_at cs) (top_k cs k)
      else raise _ ValueError
  end.

(** The embedding provider is external: a function from texts to rows. *)
Section Embedding.
Variable embedding_function : list string -> list (list float).

(** [np.array(embedding_function.embed_documents(docs))]. *)
Definition embed_documents (docs : list string) : error + ndarray :=
  Np.array (embedding_function docs).

(** [np.array(embedding_function.embed_documents([query]))[0,:]]. *)
Definition embed_query (query : string) : error + list float :=
  match Np.array (embedding_function [query]) with
  | inl e => inl e
  | inr a => Np.index_0_all a
  end.
End Embedding.

(** ** Vocabulary of the properties *)

(** [Np.lt] on specification floats. *)
Definition sf_lt (x y : spec_float) : bool :=
  SFltb x y || (negb (SFeqb y y) && SFeqb x x).

Definition sf_nonfinite (x : spec_float) : bool :=
  match x with
  | S754_nan | S754_infinity _ => true
  | _ => false
  end.

(** In the output of a sort by [before] of items whose input positions are
    ordered by [pos], [x] may stand before [y]: [y] is not below [x], and
    when neither is below the other, [x] came first in the input. *)
Definition asc (A : Type) (before : A -> A -> bool) (pos : A -> A -> Prop)
    (x y : A) : Prop :=
  before y x = false /\ (before x y = false -> pos x y).

(** [i] may be listed before [j] in a result over the scores [cs]: the score
    at [i] is not below the score at [j] in numpy's order, and of two scores
    of which neither is below the other, the later row comes first. *)
Definition ranked (cs : list float) (i j : nat) : Prop :=
  Np.lt (nth i cs nan) (nth j cs nan) = false /\
  (Np.lt (nth j cs nan) (nth i cs nan) = false -> j < i).

(** The entry the comprehension builds for row [i]. *)
Definition entry_of (docs : list string) (cs : list float) (i : nat) : entry :=
  {| document := nth i docs EmptyString; score := nth i cs nan |}.

(** ** Sample indexes *)

Open Scope string_scope.

Definition two_docs : list string := ["first"; "second"].

Definition index_of (rows : list (list float)) : index :=
  {| sample_docs := two_docs; doc_embeddings := Arr2 2 rows |}.

Definition equal_rows : list (list float) := [[1; 0]; [1; 0]]%float.
Definition zero_first_rows : list (list float) := [[0; 0]; [1; 0]]%float.
Definition orthogonal_rows : list (list float) := [[0; 1]; [1; 0]]%float.
Definition unit_query : list float := [1; 0]%float.

(** An entry [e2] listed after [e1] never has the greater score; when the
    score of [e1] is a number, the score of [e2] is at most that number. *)
Definition non_increasing (e1 e2 : entry) : Prop :=
  (score e1 <? score e2)%float = false /\
  (is_nan (score e1) = false -> (score e2 <=? score e1)%float = true).

(** The stored records with their similarity to [q], in insertion order. *)
Definition scored_records (docs : list string) (rows : list (list float))
    (q : list float) : list entry :=
  map (fun p => {| document := fst p; score := cosine (snd p) q |})
      (combine docs rows).

(** ** The other cells of the notebook *)

(** The cell that compares the sample documents pairwise:
    [norms = np.linalg.norm(embeddings, axis = 1)] and
    [cosine_similarities = (embeddings @ embeddings.T) / (norms.T * norms)].
    [norms] is one-dimensional, so [norms.T] is [norms] and the divisor is
    the vector of the squared norms; the division broadcasts it along the
    last axis, so entry [j][i] is divided by the squared norm of row [i].
    On a one-dimensional [embeddings] the norm along axis 1 raises. *)
Definition pairwise_cosine_similarities (embeddings : ndarray)
    : error + list (list float) :=
  match embeddings with
  | Arr1 _ => inl AxisError
  | Arr2 _ rows =>
      let norms := map Np.norm rows in
      let divisor := map (fun n => (n * n)%float) norms in
      inr (map (fun row_j =>
                  map (fun p => (Np.dot row_j (fst p) / snd p)%float)
                      (combine rows divisor))
               rows)
  end.

(** The cells that run a search:
    [doc_embeddings = embed_documents(sample_docs)],
    [query_embedding = embed_query(query)] and
    [relevant_docs = retrieve_relevant_documents(doc_embeddings, query_embedding, k)]
    (the notebook runs them with the query "What is a hog?" and k = 2). *)
Definition relevant_docs (embedding_function : list string -> list (list float))
    (docs : list string) (query : string) (k : Z) : error + list entry :=
  match embed_documents embedding_function docs with
  | inl e => inl e
  | inr a =>
      match embed_query embedding_function query with
      | inl e => inl e
      | inr query_embedding =>
          snd (retrieve_relevant_documents query_embedding k
                 {| sample_docs := docs; doc_embeddings := a |})
      end
  end.

(** Three texts, and a provider that embeds by the length of the text. *)
Definition three_docs : list string := ["pig"; "cows"; "hen"].

Definition length_provider (l : list string) : list (list float) :=
  map (fun d => if Nat.eqb (String.length d) 3 then [1; 0]%float
                else [0; 1]%float) l.

(** ** The retrieval over an arbitrary argsort, and exact arithmetic *)

(** [sim_scores[::-1][:k]] and [retrieve_relevant_documents] with
    [np.argsort] left open: the function of the cell, line by line, for
    whatever order numpy's sort gives to equal values.
    [retrieve_relevant_documents] is this function at [Np.argsort]. *)
Definition top_k_by (argsort : list float -> list nat) (cs : list float)
    (k : Z) : list nat :=
  Np.slice_to k (rev (argsort cs)).

Definition retrieve_relevant_documents_by (argsort : list float -> list nat)
    (query_embedding : list float) (k : Z) : M (list entry) :=
  a <- gets doc_embeddings ;;
  match a with
  | Arr1 v =>
      if Nat.eqb (length v) (length query_embedding)
      then raise _ AxisError
      else raise _ ValueError
  | Arr2 D rows =>
      if Nat.eqb D (length query_embedding)
      then
        let cs := cosine_similarities rows query_embedding in
        mapM (entry_at cs) (top_k_by argsort cs k)
      else raise _ ValueError
  end.

(** Two scores are tied when they are equal as numbers. *)
Definition tied (cs : list float) (i j : nat) : Prop :=
  (nth i cs nan =? nth j cs nan)%float = true.








(** ** IEEE facts, through the specification of the primitive floats *)

Module FloatFacts.

Ltac prune :=
  simpl;
  repeat match goal with
  | |- true = false -> _ => let H := fresh in intros H; discriminate H
  | |- false = true -> _ => let H := fresh in intros H; discriminate H
  | |- false = false -> _ => intros _
  | |- true = true -> _ => intros _
  end;
  try reflexivity.

Ltac cmp_cases :=
  change (Pos.compare_cont Eq) with Pos.compare in *;
  repeat (match goal with
  | |- context [Z.compare ?a ?b] => destruct (Z.compare_spec a b)
  | |- context [Pos.compare ?a ?b] => destruct (Pos.compare_spec a b)
  end; prune); try lia.

Ltac sf_cases x := destruct x as [[|]|[|]| |[|] ? ?].

Lemma lt_spec a b : Np.lt a b = sf_lt (Prim2SF a) (Prim2SF b).
Proof. unfold Np.lt, sf_lt. now rewrite ltb_spec, !eqb_spec. Qed.

Lemma sf_lt_asym x y : sf_lt x y = true -> sf_lt y x = false.
Proof.
  unfold sf_lt, SFltb, SFeqb.
  sf_cases x; sf_cases y; prune; cmp_cases.
Qed.

Lemma sf_lt_negtrans x y z :
  sf_lt z y = false -> sf_lt y x = false -> sf_lt z x = false.
Proof.
  unfold sf_lt, SFltb, SFeqb.
  sf_cases x; sf_cases y; sf_cases z; prune; cmp_cases.
Qed.

Lemma sf_lt_leb x y :
  sf_lt x y = false -> SFeqb x x = true -> SFleb y x = true.
Proof.
  unfold sf_lt, SFltb, SFeqb, SFleb.
  sf_cases x; sf_cases y; prune; cmp_cases.
Qed.

Lemma sf_eqb_lt x y : SFeqb x y = true -> sf_lt y x = false.
Proof.
  unfold sf_lt, SFltb, SFeqb.
  sf_cases x; sf_cases y; prune; cmp_cases.
Qed.

(** [Np.lt] is a strict weak order: asymmetric, and its complement is
    transitive. *)
Lemma lt_asym a b : Np.lt a b = true -> Np.lt b a = false.
Proof. rewrite !lt_spec. apply sf_lt_asym. Qed.

Lemma lt_negtrans a b c :
  Np.lt c b = false -> Np.lt b a = false -> Np.lt c a = false.
Proof. rewrite !lt_spec. apply sf_lt_negtrans. Qed.


Lemma lt_false_ltb a b : Np.lt a b = false -> (a <? b)%float = false.
Proof. unfold Np.lt. now destruct (a <? b)%float. Qed.

Lemma lt_false_leb a b :
  Np.lt a b = false -> is_nan a = false -> (b <=? a)%float = true.
Proof.
  unfold is_nan. rewrite lt_spec, leb_spec, eqb_spec. intros H Hn.
  apply sf_lt_leb; [exact H|]. now destruct (SFeqb (Prim2SF a) (Prim2SF a)).
Qed.

Lemma eqb_lt_false a b : (a =? b)%float = true -> Np.lt b a = false.
Proof. rewrite lt_spec, eqb_spec. apply sf_eqb_lt. Qed.

Lemma Prim2SF_zero : Prim2SF zero = S754_zero false.
Proof. reflexivity. Qed.

Lemma Prim2SF_infinity : Prim2SF infinity = S754_infinity false.
Proof. reflexivity. Qed.

Lemma is_zero_spec x : is_zero x = true -> exists s, Prim2SF x = S754_zero s.
Proof.
  unfold is_zero. rewrite eqb_spec, Prim2SF_zero.
  destruct (Prim2SF x) as [s|[|]| |[|] ? ?]; try discriminate. now exists s.
Qed.

Lemma is_finite_spec x : is_finite x = negb (sf_nonfinite (Prim2SF x)).
Proof.
  unfold is_finite, is_nan, is_infinity.
  rewrite !eqb_spec, abs_spec, Prim2SF_infinity.
  destruct (Prim2SF x) as [[|]|[|]| |[|] ? ?]; try reflexivity.
  all: unfold SFeqb; simpl; change (Pos.compare_cont Eq) with Pos.compare;
    rewrite Z.compare_refl, Pos.compare_refl; reflexivity.
Qed.

(** A quotient whose divisor is a product with a zero factor is NaN or
    infinite: the product is a zero or NaN, and nothing divided by either
    is a finite number. *)
Lemma div_by_zero_nonfinite x y z :
  is_zero y = true \/ is_zero z = true ->
  is_finite (x / (y * z))%float = false.
Proof.
  intros H. rewrite is_finite_spec, div_spec, mul_spec.
  assert (Hp : match SF64mul (Prim2SF y) (Prim2SF z) with
               | S754_zero _ | S754_nan => True
               | _ => False
               end).
  { destruct H as [H|H]; apply is_zero_spec in H; destruct H as [s ->].
    - destruct (Prim2SF z); exact I.
    - destruct (Prim2SF y); exact I. }
  destruct (SF64mul (Prim2SF y) (Prim2SF z)); try contradiction;
    destruct (Prim2SF x); reflexivity.
Qed.

Lemma nonfinite_not_zero x : is_finite x = false -> is_zero x = false.
Proof.
  rewrite is_finite_spec. unfold is_zero. rewrite eqb_spec, Prim2SF_zero.
  destruct (Prim2SF x) as [[|]|[|]| |[|] ? ?]; try discriminate; reflexivity.
Qed.

End FloatFacts.

(** ** Sorting facts *)

Section ListFacts.
Variable A : Type.

Lemma StronglySorted_impl (R R' : A -> A -> Prop) (l : list A) :
  (forall x y, In x l -> In y l -> R x y -> R' x y) ->
  StronglySorted R l -> StronglySorted R' l.
Proof.
  intros HR H. induction H as [|x l Hl IH Hx]; constructor.
  - apply IH. intros; apply HR; simpl; auto.
  - rewrite Forall_forall in *. intros y Hy.
    apply HR; simpl; auto.
Qed.

Lemma StronglySorted_snoc (R : A -> A -> Prop) (l : list A) (x : A) :
  StronglySorted R l -> Forall (fun y => R y x) l ->
  StronglySorted R (l ++ [x]).
Proof.
  induction 1 as [|y l Hl IH Hy]; intros Hx; simpl.
  - repeat constructor.
  - inversion Hx; subst. constructor; [auto|].
    apply Forall_app; split; [assumption|]. now constructor.
Qed.

Lemma StronglySorted_rev (R : A -> A -> Prop) (l : list A) :
  StronglySorted R l -> StronglySorted (fun x y => R y x) (rev l).
Proof.
  induction 1 as [|x l Hl IH Hx]; simpl; [constructor|].
  apply StronglySorted_snoc; [assumption|].
  apply Forall_rev. exact Hx.
Qed.

Lemma firstn_incl (n : nat) (l : list A) (x : A) :
  In x (firstn n l) -> In x l.
Proof.
  revert n. induction l as [|y l IH]; intros [|n]; simpl; try tauto.
  intros [H|H]; [auto|right; eauto].
Qed.

Lemma StronglySorted_firstn (R : A -> A -> Prop) (n : nat) (l : list A) :
  StronglySorted R l -> StronglySorted R (firstn n l).
Proof.
  intros H. revert n. induction H as [|x l Hl IH Hx]; intros [|n]; simpl;
    try constructor; [apply IH|].
  rewrite Forall_forall in *. intros y Hy. apply Hx.
  eapply firstn_incl; eauto.
Qed.

Lemma StronglySorted_map (B : Type) (f : A -> B) (R : B -> B -> Prop)
    (l : list A) :
  StronglySorted (fun x y => R (f x) (f y)) l -> StronglySorted R (map f l).
Proof.
  induction 1 as [|x l Hl IH Hx]; simpl; constructor; [assumption|].
  rewrite Forall_forall in *. intros y Hy.
  apply in_map_iff in Hy. destruct Hy as [z [<- Hz]]. auto.
Qed.

Lemma slice_to_firstn (k : Z) (l : list A) :
  exists m, Np.slice_to k l = firstn m l.
Proof. unfold Np.slice_to. destruct (0 <=? k)%Z; eauto. Qed.
End ListFacts.

Section SortFacts.
Variable A : Type.
Variable before : A -> A -> bool.
(** The order of the positions in the input. *)
Variable pos : A -> A -> Prop.

Hypothesis before_asym : forall x y, before x y = true -> before y x = false.
Hypothesis before_negtrans :
  forall x y z, before z y = false -> before y x = false -> before z x = false.

Lemma insert_perm (x : A) (l : list A) :
  Permutation (Np.insert before x l) (x :: l).
Proof.
  induction l as [|y l IH]; simpl; [reflexivity|].
  destruct (before y x); [|reflexivity].
  rewrite IH. apply perm_swap.
Qed.

Lemma isort_perm (l : list A) : Permutation (Np.isort before l) l.
Proof.
  induction l as [|x l IH]; simpl; [reflexivity|].
  rewrite insert_perm. now constructor.
Qed.

Lemma insert_sorted (x : A) (l : list A) :
  Forall (pos x) l -> StronglySorted (asc before pos) l ->
  StronglySorted (asc before pos) (Np.insert before x l).
Proof.
  intros Hx Hl. induction Hl as [|y l Hl IH Hy]; simpl.
  - repeat constructor.
  - inversion Hx as [|? ? Hxy Hxl]; subst.
    destruct (before y x) eqn:E.
    + constructor; [apply IH; assumption|].
      eapply Permutation_Forall; [symmetry; apply insert_perm|].
      constructor; [|assumption].
      split; [apply before_asym; assumption|]. congruence.
    + constructor; [constructor; assumption|].
      constructor; [split; auto|].
      rewrite Forall_forall in *. intros z Hz.
      destruct (Hy z Hz) as [Hzy _].
      split; [eapply before_negtrans; eassumption|auto].
Qed.

Lemma isort_sorted (l : list A) :
  StronglySorted pos l -> StronglySorted (asc before pos) (Np.isort before l).
Proof.
  induction 1 as [|x l Hl IH Hx]; simpl; [constructor|].
  apply insert_sorted; [|assumption].
  eapply Permutation_Forall; [symmetry; apply isort_perm|assumption].
Qed.
End SortFacts.

(** ** The ranking *)

Lemma seq_sorted (a n : nat) : StronglySorted lt (seq a n).
Proof.
  revert a. induction n as [|n IH]; intros a; simpl; constructor; [apply IH|].
  apply Forall_forall. intros x Hx. apply in_seq in Hx. lia.
Qed.

Lemma argsort_perm (cs : list float) :
  Permutation (Np.argsort cs) (seq 0 (length cs)).
Proof. apply isort_perm. Qed.

Lemma argsort_sorted (cs : list float) :
  StronglySorted (fun i j => ranked cs j i) (Np.argsort cs).
Proof.
  unfold Np.argsort.
  eapply StronglySorted_impl;
    [|apply (@isort_sorted nat
               (fun i j => Np.lt (nth i cs nan) (nth j cs nan)) lt)].
  - intros x y _ _ [H1 H2]. split; assumption.
  - intros x y. apply FloatFacts.lt_asym.
  - intros x y z. apply FloatFacts.lt_negtrans.
  - apply seq_sorted.
Qed.

Lemma top_k_ranked (cs : list float) (k : Z) :
  StronglySorted (ranked cs) (top_k cs k).
Proof.
  unfold top_k. destruct (slice_to_firstn k (rev (Np.argsort cs))) as [m ->].
  apply StronglySorted_firstn.
  apply (StronglySorted_rev (argsort_sorted cs)).
Qed.

Lemma top_k_bound (cs : list float) (k : Z) (i : nat) :
  In i (top_k cs k) -> i < length cs.
Proof.
  unfold top_k. destruct (slice_to_firstn k (rev (Np.argsort cs))) as [m ->].
  intros H. apply firstn_incl, in_rev in H.
  apply (Permutation_in _ (argsort_perm cs)), in_seq in H. lia.
Qed.

Lemma top_k_length (cs : list float) (k : Z) :
  (0 <= k)%Z -> length (top_k cs k) = Nat.min (Z.to_nat k) (length cs).
Proof.
  intros Hk. unfold top_k, Np.slice_to.
  destruct (Z.leb_spec 0 k); [|lia].
  rewrite length_firstn, length_rev, (Permutation_length (argsort_perm cs)).
  now rewrite length_seq.
Qed.

Lemma top_k_all (cs : list float) (k : Z) :
  (Z.of_nat (length cs) <= k)%Z ->
  Permutation (top_k cs k) (seq 0 (length cs)).
Proof.
  intros Hk. unfold top_k, Np.slice_to.
  destruct (Z.leb_spec 0 k); [|lia].
  rewrite firstn_all2.
  - rewrite <- (argsort_perm cs). symmetry. apply Permutation_rev.
  - rewrite length_rev, (Permutation_length (argsort_perm cs)), length_seq. lia.
Qed.

(** ** Runs of the comprehension and of the function *)

Lemma entry_at_run (cs : list float) (i : nat) (s : index) :
  entry_at cs i s
  = (s, match nth_error (sample_docs s) i with
        | Some d => inr {| document := d; score := nth i cs nan |}
        | None => inl IndexError
        end).
Proof.
  unfold entry_at, bind, gets, getitem.
  destruct (nth_error (sample_docs s) i); reflexivity.
Qed.

Lemma mapM_entry_frame (cs : list float) (l : list nat) (s : index) :
  fst (mapM (entry_at cs) l s) = s.
Proof.
  induction l as [|i l IH]; simpl; [reflexivity|].
  unfold bind at 1. rewrite entry_at_run.
  destruct (nth_error (sample_docs s) i); [|reflexivity].
  unfold bind. destruct (mapM (entry_at cs) l s) as [s' [e|ys]];
    simpl in *; now subst.
Qed.

Lemma mapM_entry_ok (cs : list float) (l : list nat) (s : index) :
  (forall i, In i l -> i < length (sample_docs s)) ->
  mapM (entry_at cs) l s = (s, inr (map (entry_of (sample_docs s) cs) l)).
Proof.
  induction l as [|i l IH]; intros Hl; simpl; [reflexivity|].
  unfold bind at 1. rewrite entry_at_run.
  assert (Hi : i < length (sample_docs s)) by (apply Hl; simpl; auto).
  destruct (nth_error (sample_docs s) i) as [d|] eqn:E;
    [|apply nth_error_None in E; lia].
  unfold bind. rewrite IH by (intros; apply Hl; simpl; auto).
  unfold ret, entry_of. now rewrite (nth_error_nth _ _ _ E).
Qed.

Lemma retrieve_frame (q : list float) (k : Z) (s : index) :
  fst (retrieve_relevant_documents q k s) = s.
Proof.
  unfold retrieve_relevant_documents, bind, gets. simpl.
  destruct (doc_embeddings s) as [v|D rows].
  - destruct (Nat.eqb _ _); reflexivity.
  - destruct (Nat.eqb _ _); [apply mapM_entry_frame|reflexivity].
Qed.

Lemma retrieve_ok (docs : list string) (rows : list (list float))
    (q : list float) (k : Z) :
  (forall i, In i (top_k (cosine_similarities rows q) k) -> i < length docs) ->
  retrieve_relevant_documents q k
    {| sample_docs := docs; doc_embeddings := Arr2 (length q) rows |}
  = ({| sample_docs := docs; doc_embeddings := Arr2 (length q) rows |},
     inr (map (entry_of docs (cosine_similarities rows q))
              (top_k (cosine_similarities rows q) k))).
Proof.
  intros H. unfold retrieve_relevant_documents, bind, gets. simpl.
  rewrite Nat.eqb_refl. now apply mapM_entry_ok.
Qed.

Lemma cosine_similarities_length (rows : list (list float)) (q : list float) :
  length (cosine_similarities rows q) = length rows.
Proof. apply length_map. Qed.

Lemma cosine_similarities_nth (rows : list (list float)) (q : list float)
    (i : nat) (v : list float) :
  nth_error rows i = Some v ->
  nth i (cosine_similarities rows q) nan = cosine v q.
Proof.
  intros H. unfold cosine_similarities.
  apply nth_error_nth. now rewrite nth_error_map, H.
Qed.

(** The entries of all rows, in row order. *)
Lemma entries_of_seq (docs : list string) (rows : list (list float))
    (q : list float) :
  length docs = length rows ->
  map (entry_of docs (cosine_similarities rows q)) (seq 0 (length rows))
  = map (fun p => {| document := fst p; score := cosine (snd p) q |})
        (combine docs rows).
Proof.
  revert rows. induction docs as [|d docs IH]; intros [|r rows] H;
    simpl in *; try discriminate; [reflexivity|].
  f_equal. rewrite <- seq_shift, map_map. apply IH. lia.
Qed.

(** ** Properties of [retrieve_relevant_documents] *)

(** C1, as the code has it: on an index whose records all have dimension D,
    a query of dimension D with a non-negative k returns normally, whatever
    the size of k; the result has min(k, record count) entries, and when k
    is at least the record count the entries are exactly the stored
    records. No entry has a lower score than an entry after it: the entries
    whose similarity is NaN come first, the others follow by non-increasing
    similarity. *)
Theorem query_returns_all_ranked (docs : list string) (D : nat)
    (rows : list (list float)) (q : list float) (k : Z) :
  shape_ok (Arr2 D rows) -> length q = D -> length docs = length rows ->
  (0 <= k)%Z ->
  exists l,
    retrieve_relevant_documents q k
      {| sample_docs := docs; doc_embeddings := Arr2 D rows |}
    = ({| sample_docs := docs; doc_embeddings := Arr2 D rows |}, inr l)
    /\ length l = Nat.min (Z.to_nat k) (length rows)
    /\ StronglySorted non_increasing l
    /\ ((Z.of_nat (length rows) <= k)%Z ->
        Permutation l (scored_records docs rows q)).
Proof.
  intros _ <- Hlen Hk.
  set (cs := cosine_similarities rows q).
  assert (Hcs : length cs = length rows) by apply cosine_similarities_length.
  exists (map (entry_of docs cs) (top_k cs k)). repeat split.
  - apply retrieve_ok. intros i Hi. apply top_k_bound in Hi. fold cs in Hi. lia.
  - now rewrite length_map, top_k_length, Hcs.
  - apply StronglySorted_map.
    eapply StronglySorted_impl; [|apply top_k_ranked].
    intros i j _ _ [H _]. unfold non_increasing, entry_of; simpl. split.
    + now apply FloatFacts.lt_false_ltb.
    + now apply FloatFacts.lt_false_leb.
  - intros Hn. rewrite (@top_k_all cs k) by lia.
    rewrite Hcs. unfold cs, scored_records. now rewrite entries_of_seq.
Qed.

Lemma query_returns_all_ranked_witness :
  exists l,
    retrieve_relevant_documents unit_query 5 (index_of orthogonal_rows)
    = (index_of orthogonal_rows, inr l)
    /\ length l = Nat.min (Z.to_nat 5) (length orthogonal_rows)
    /\ StronglySorted non_increasing l
    /\ ((Z.of_nat (length orthogonal_rows) <= 5)%Z ->
        Permutation l (scored_records two_docs orthogonal_rows unit_query)).
Proof.
  apply (@query_returns_all_ranked two_docs 2 orthogonal_rows unit_query 5).
  - repeat constructor.
  - reflexivity.
  - reflexivity.
  - lia.
Defined.

(** C1 as stated fails: with a zero vector stored, the query lists the
    record whose similarity is NaN before the record of similarity 1, so the
    highest score is not first and the scores are not non-increasing. *)
Lemma nan_score_listed_before_best_match :
  retrieve_relevant_documents unit_query 2 (index_of zero_first_rows)
  = (index_of zero_first_rows,
     inr [{| document := "first"; score := nan |};
          {| document := "second"; score := 1 |}])
  /\ (1 <=? nan)%float = false.
Proof. split; vm_compute; reflexivity. Qed.

(** C2, as the code has it: the division is not guarded. When the computed
    norm of the query or of a stored vector is zero, the similarity of that
    pair is NaN or infinite, never 0; no exception is raised, and the value
    is the score that the query reports for that row. *)
Theorem zero_norm_similarity_not_finite (docs : list string)
    (rows : list (list float)) (q : list float) (k : Z) (i : nat)
    (v : list float) :
  nth_error rows i = Some v ->
  length rows <= length docs ->
  is_zero (Np.norm q) = true \/ is_zero (Np.norm v) = true ->
  is_finite (cosine v q) = false
  /\ is_zero (cosine v q) = false
  /\ retrieve_relevant_documents q k
       {| sample_docs := docs; doc_embeddings := Arr2 (length q) rows |}
     = ({| sample_docs := docs; doc_embeddings := Arr2 (length q) rows |},
        inr (map (entry_of docs (cosine_similarities rows q))
                 (top_k (cosine_similarities rows q) k)))
  /\ score (entry_of docs (cosine_similarities rows q) i) = cosine v q.
Proof.
  intros Hv Hlen Hz.
  assert (Hf : is_finite (cosine v q) = false).
  { unfold cosine. apply FloatFacts.div_by_zero_nonfinite. tauto. }
  repeat split.
  - exact Hf.
  - now apply FloatFacts.nonfinite_not_zero.
  - apply retrieve_ok. intros j Hj. apply top_k_bound in Hj.
    rewrite cosine_similarities_length in Hj. lia.
  - simpl. now apply cosine_similarities_nth.
Qed.

Lemma zero_norm_similarity_not_finite_witness :
  is_finite (cosine [0; 0]%float unit_query) = false
  /\ is_zero (cosine [0; 0]%float unit_query) = false
  /\ retrieve_relevant_documents unit_query 2 (index_of zero_first_rows)
     = (index_of zero_first_rows,
        inr (map (entry_of two_docs
                    (cosine_similarities zero_first_rows unit_query))
                 (top_k (cosine_similarities zero_first_rows unit_query) 2)))
  /\ score (entry_of two_docs
              (cosine_similarities zero_first_rows unit_query) 0)
     = cosine [0; 0]%float unit_query.
Proof.
  apply (@zero_norm_similarity_not_finite two_docs zero_first_rows unit_query
           2 0 [0; 0]%float).
  - reflexivity.
  - simpl. lia.
  - right. reflexivity.
Defined.

(** C2 as stated fails: a stored zero vector has norm 0, its similarity to
    the unit query is NaN and not 0, and the query reports NaN, first. *)
Lemma zero_row_scores_nan :
  is_zero (Np.norm [0; 0]%float) = true
  /\ cosine [0; 0]%float unit_query = nan
  /\ is_zero (cosine [0; 0]%float unit_query) = false
  /\ retrieve_relevant_documents unit_query 2 (index_of zero_first_rows)
     = (index_of zero_first_rows,
        inr [{| document := "first"; score := nan |};
             {| document := "second"; score := 1 |}]).
Proof. repeat split; vm_compute; reflexivity. Qed.

Lemma eqb_sym (a b : float) : (a =? b)%float = (b =? a)%float.
Proof.
  rewrite !eqb_spec. unfold SFeqb.
  generalize (Prim2SF a) (Prim2SF b). intros x y.
  FloatFacts.sf_cases x; FloatFacts.sf_cases y; simpl; try reflexivity;
    FloatFacts.cmp_cases.
Qed.

Lemma tied_sym (cs : list float) (i j : nat) : tied cs i j -> tied cs j i.
Proof. unfold tied. now rewrite eqb_sym. Qed.

Lemma retrieve_by_argsort (q : list float) (k : Z) (s : index) :
  retrieve_relevant_documents_by Np.argsort q k s
  = retrieve_relevant_documents q k s.
Proof. reflexivity. Qed.

Lemma top_k_by_reversed (argsort : list float -> list nat) (cs : list float)
    (k : Z) (R : nat -> nat -> Prop) :
  StronglySorted R (argsort cs) ->
  StronglySorted (fun i j => R j i) (top_k_by argsort cs k).
Proof.
  intros H. unfold top_k_by.
  destruct (slice_to_firstn k (rev (argsort cs))) as [m ->].
  apply StronglySorted_firstn. now apply StronglySorted_rev.
Qed.

Lemma top_k_by_bound (argsort : list float -> list nat) (cs : list float)
    (k : Z) (n i : nat) :
  Permutation (argsort cs) (seq 0 n) ->
  In i (top_k_by argsort cs k) -> i < n.
Proof.
  intros Hp. unfold top_k_by.
  destruct (slice_to_firstn k (rev (argsort cs))) as [m ->].
  intros H. apply firstn_incl, in_rev in H.
  apply (Permutation_in _ Hp), in_seq in H. lia.
Qed.

Lemma sf_eqb_between (x y z : spec_float) :
  sf_lt x z = false -> sf_lt z y = false -> SFeqb x y = true ->
  SFeqb x z = true.
Proof.
  unfold sf_lt, SFltb, SFeqb.
  FloatFacts.sf_cases x; FloatFacts.sf_cases y; FloatFacts.sf_cases z;
    FloatFacts.prune; FloatFacts.cmp_cases.
Qed.

(** A score between two equal scores of a sorted list is equal to them. *)
Lemma eqb_between (a b m : float) :
  Np.lt a m = false -> Np.lt m b = false -> (a =? b)%float = true ->
  (a =? m)%float = true.
Proof. rewrite !FloatFacts.lt_spec, !eqb_spec. apply sf_eqb_between. Qed.

Lemma StronglySorted_app_r (A : Type) (R : A -> A -> Prop) (l1 l2 : list A) :
  StronglySorted R (l1 ++ l2) -> StronglySorted R l2.
Proof.
  induction l1 as [|x l1 IH]; simpl; [trivial|].
  intros H. inversion H; subst. auto.
Qed.

Lemma StronglySorted_between (A : Type) (R : A -> A -> Prop)
    (l1 l2 l3 : list A) (i j : A) :
  StronglySorted R (l1 ++ i :: l2 ++ j :: l3) ->
  Forall (fun m => R i m /\ R m j) l2.
Proof.
  intros H. apply StronglySorted_app_r in H.
  inversion H as [|? ? Hs Hi]; subst.
  rewrite Forall_forall in *. intros m Hm. split.
  - apply Hi, in_or_app. now left.
  - induction l2 as [|x l2 IH]; [contradiction|].
    simpl in Hs. inversion Hs as [|? ? Hs' Hx]; subst.
    destruct Hm as [<-|Hm].
    + rewrite Forall_forall in Hx. apply Hx, in_or_app. right. now left.
    + apply IH; try assumption.
      * constructor; [assumption|].
        apply Forall_forall. intros y Hy. apply Hi. now right.
      * intros y Hy. apply Hi. now right.
Qed.

(** C3, as the code has it: the code breaks a tie by nothing of its own.
    Whatever order np.argsort returns the rows in (numpy's default sort
    promises the ascending order of the scores and none among equal
    scores), the result lists them in the reverse of it. Tied records are
    listed next to one another. When argsort returns tied rows in insertion
    order, as a stable sort does, the later-inserted of two tied records
    ranks higher; when it returns them in reverse insertion order, the
    earlier-inserted one does. *)
Theorem tied_records_follow_reversed_argsort
    (argsort : list float -> list nat) (docs : list string)
    (rows : list (list float)) (q : list float) (k : Z) :
  Permutation (argsort (cosine_similarities rows q)) (seq 0 (length rows)) ->
  StronglySorted
    (fun i j => Np.lt (nth j (cosine_similarities rows q) nan)
                      (nth i (cosine_similarities rows q) nan) = false)
    (argsort (cosine_similarities rows q)) ->
  length rows <= length docs ->
  retrieve_relevant_documents_by argsort q k
    {| sample_docs := docs; doc_embeddings := Arr2 (length q) rows |}
  = ({| sample_docs := docs; doc_embeddings := Arr2 (length q) rows |},
     inr (map (entry_of docs (cosine_similarities rows q))
              (top_k_by argsort (cosine_similarities rows q) k)))
  /\ (forall R : nat -> nat -> Prop,
        StronglySorted R (argsort (cosine_similarities rows q)) ->
        StronglySorted (fun i j => R j i)
          (top_k_by argsort (cosine_similarities rows q) k))
  /\ (forall (l1 l2 l3 : list nat) (i j : nat),
        top_k_by argsort (cosine_similarities rows q) k
        = (l1 ++ i :: l2 ++ j :: l3)%list ->
        tied (cosine_similarities rows q) i j ->
        Forall (tied (cosine_similarities rows q) i) l2)
  /\ (StronglySorted
        (fun i j => tied (cosine_similarities rows q) i j -> i < j)
        (argsort (cosine_similarities rows q)) ->
      StronglySorted
        (fun i j => tied (cosine_similarities rows q) i j -> j < i)
        (top_k_by argsort (cosine_similarities rows q) k))
  /\ (StronglySorted
        (fun i j => tied (cosine_similarities rows q) i j -> j < i)
        (argsort (cosine_similarities rows q)) ->
      StronglySorted
        (fun i j => tied (cosine_similarities rows q) i j -> i < j)
        (top_k_by argsort (cosine_similarities rows q) k)).
Proof.
  intros Hp Hasc Hlen.
  set (cs := cosine_similarities rows q) in *.
  split; [|split; [|split; [|split]]].
  - unfold retrieve_relevant_documents_by, bind, gets. simpl.
    rewrite Nat.eqb_refl. fold cs. apply mapM_entry_ok. simpl.
    intros i Hi. eapply top_k_by_bound in Hi; [|exact Hp]. lia.
  - intros R. apply top_k_by_reversed.
  - intros l1 l2 l3 i j E Ht.
    apply (@top_k_by_reversed argsort cs k) in Hasc. rewrite E in Hasc.
    apply StronglySorted_between in Hasc.
    eapply Forall_impl; [|exact Hasc].
    intros m [Him Hmj]. unfold tied in *. eapply eqb_between; eassumption.
  - intros H. apply (@top_k_by_reversed argsort cs k) in H.
    eapply StronglySorted_impl; [|exact H].
    intros i j _ _ Hji Ht. simpl in Hji. apply Hji. now apply tied_sym.
  - intros H. apply (@top_k_by_reversed argsort cs k) in H.
    eapply StronglySorted_impl; [|exact H].
    intros i j _ _ Hji Ht. simpl in Hji. apply Hji. now apply tied_sym.
Qed.

Lemma tied_records_follow_reversed_argsort_witness :
  retrieve_relevant_documents_by Np.argsort unit_query 2 (index_of equal_rows)
  = (index_of equal_rows,
     inr (map (entry_of two_docs (cosine_similarities equal_rows unit_query))
              (top_k_by Np.argsort
                 (cosine_similarities equal_rows unit_query) 2)))
  /\ StronglySorted
       (fun i j => tied (cosine_similarities equal_rows unit_query) i j ->
                   j < i)
       (top_k_by Np.argsort (cosine_similarities equal_rows unit_query) 2).
Proof.
  assert (Hp : Permutation
                 (Np.argsort (cosine_similarities equal_rows unit_query))
                 (seq 0 (length equal_rows)))
    by (vm_compute; apply Permutation_refl).
  assert (Hasc : StronglySorted
                   (fun i j =>
                      Np.lt (nth j (cosine_similarities equal_rows unit_query)
                               nan)
                            (nth i (cosine_similarities equal_rows unit_query)
                               nan) = false)
                   (Np.argsort (cosine_similarities equal_rows unit_query))).
  { change (Np.argsort (cosine_similarities equal_rows unit_query))
      with [0; 1].
    repeat (constructor; try reflexivity). }
  assert (Hlen : length equal_rows <= length two_docs) by (simpl; lia).
  pose proof (@tied_records_follow_reversed_argsort Np.argsort two_docs
                equal_rows unit_query 2 Hp Hasc Hlen) as H.
  split; [exact (proj1 H)|].
  apply (proj1 (proj2 (proj2 (proj2 H)))).
  change (Np.argsort (cosine_similarities equal_rows unit_query))
    with [0; 1].
  repeat (constructor; try (intros _; lia)).
Defined.

(** C3 as stated fails: two records with the same vector tie at 1, and the
    record inserted second is returned before the one inserted first. *)
Lemma tie_returns_later_record_first :
  retrieve_relevant_documents unit_query 2 (index_of equal_rows)
  = (index_of equal_rows,
     inr [{| document := "second"; score := 1 |};
          {| document := "first"; score := 1 |}]).
Proof. vm_compute. reflexivity. Qed.

(** C4, as the code has it: there is no check for an empty index. On an
    embedding matrix with no row the query returns the empty list; on the
    empty one-dimensional array it raises numpy's own error (the length
    mismatch of the product, or the missing axis of the norm). *)
Theorem empty_index_returns_empty_list (docs : list string) (q : list float)
    (k : Z) :
  retrieve_relevant_documents q k
    {| sample_docs := docs; doc_embeddings := Arr2 (length q) [] |}
  = ({| sample_docs := docs; doc_embeddings := Arr2 (length q) [] |}, inr [])
  /\ retrieve_relevant_documents q k
       {| sample_docs := docs; doc_embeddings := Arr1 [] |}
     = ({| sample_docs := docs; doc_embeddings := Arr1 [] |},
        inl (if Nat.eqb 0 (length q) then AxisError else ValueError)).
Proof.
  split.
  - unfold retrieve_relevant_documents, bind, gets. simpl.
    rewrite Nat.eqb_refl.
    assert (E : top_k [] k = []).
    { unfold top_k, Np.slice_to. simpl.
      destruct (0 <=? k)%Z; [apply firstn_nil|reflexivity]. }
    now rewrite E.
  - unfold retrieve_relevant_documents, bind, gets. simpl.
    destruct (length q); reflexivity.
Qed.

(** C4 as stated fails: a query on a two-column matrix without rows returns
    the empty list. *)
Lemma empty_matrix_query_returns_normally :
  retrieve_relevant_documents unit_query 1 (index_of [])
  = (index_of [], inr []).
Proof. reflexivity. Qed.

(** C5: a query vector whose length differs from the column count D of the
    index is rejected with the dimension error of the matrix product, and
    the index is left as it was. *)
Theorem query_dimension_mismatch_rejected (docs : list string) (D : nat)
    (rows : list (list float)) (q : list float) (k : Z) :
  length q <> D ->
  retrieve_relevant_documents q k
    {| sample_docs := docs; doc_embeddings := Arr2 D rows |}
  = ({| sample_docs := docs; doc_embeddings := Arr2 D rows |}, inl ValueError).
Proof.
  intros H. unfold retrieve_relevant_documents, bind, gets. simpl.
  destruct (Nat.eqb_spec D (length q)); [congruence|reflexivity].
Qed.

Lemma query_dimension_mismatch_rejected_witness :
  retrieve_relevant_documents [1; 0; 0]%float 1 (index_of orthogonal_rows)
  = (index_of orthogonal_rows, inl ValueError).
Proof.
  apply (@query_dimension_mismatch_rejected two_docs 2 orthogonal_rows
           [1; 0; 0]%float 1).
  simpl. lia.
Defined.

(** C6: a second query with the same vector and k, run on the index as the
    first query left it, returns the result of the first, tied entries in
    the same order. *)
Theorem query_twice_same_result (q : list float) (k : Z) (s : index) :
  snd (retrieve_relevant_documents q k
         (fst (retrieve_relevant_documents q k s)))
  = snd (retrieve_relevant_documents q k s).
Proof.
  pose proof (retrieve_frame q k s) as Hframe.
  destruct (retrieve_relevant_documents q k s) as [s1 r1] eqn:E1.
  simpl in Hframe. subst s1. simpl.
  now rewrite E1.
Qed.

(** C7: whatever the query and its outcome, the document list and the
    embedding array are after the call what they were before. *)
Theorem query_leaves_index_unchanged (q : list float) (k : Z) (s : index) :
  sample_docs (fst (retrieve_relevant_documents q k s)) = sample_docs s
  /\ doc_embeddings (fst (retrieve_relevant_documents q k s))
     = doc_embeddings s.
Proof.
  unfold retrieve_relevant_documents, bind, gets. simpl.
  destruct (doc_embeddings s) as [v|D rows] eqn:Ea.
  - destruct (Nat.eqb _ _); simpl; auto.
  - destruct (Nat.eqb _ _); simpl; [|auto].
    rewrite mapM_entry_frame. auto.
Qed.






(** ** Rows and texts *)

Lemma array_singleton (r : list float) :
  Np.array [r] = inr (Arr2 (length r) [r]).
Proof. unfold Np.array. simpl. now rewrite Nat.eqb_refl. Qed.

Lemma Forall2_map_self (A B : Type) (P : A -> B -> Prop) (f : A -> B)
    (l : list A) :
  (forall x, In x l -> P x (f x)) -> Forall2 P l (map f l).
Proof.
  induction l as [|x l IH]; intros H; simpl; constructor.
  - apply H. simpl. auto.
  - apply IH. intros. apply H. simpl. auto.
Qed.

(** C10: when [doc_embeddings] has no more rows than [sample_docs] has
    texts, the query returns one entry per selected row index [i], whose
    score is the similarity computed for row [i] of [doc_embeddings] and
    whose document is the text at index [i] of the global [sample_docs]. *)
Theorem entries_pair_row_score_with_global_text (docs : list string)
    (D : nat) (rows : list (list float)) (q : list float) (k : Z) :
  length q = D ->
  length rows <= length docs ->
  exists l,
    retrieve_relevant_documents q k
      {| sample_docs := docs; doc_embeddings := Arr2 D rows |}
    = ({| sample_docs := docs; doc_embeddings := Arr2 D rows |}, inr l)
    /\ Forall2
         (fun i e =>
            exists row,
              nth_error rows i = Some row
              /\ nth_error docs i = Some (document e)
              /\ score e = cosine row q)
         (top_k (cosine_similarities rows q) k) l.
Proof.
  intros <- Hlen.
  set (cs := cosine_similarities rows q).
  assert (Hb : forall i, In i (top_k cs k) -> i < length rows).
  { intros i Hi. apply top_k_bound in Hi. unfold cs in Hi.
    now rewrite cosine_similarities_length in Hi. }
  exists (map (entry_of docs cs) (top_k cs k)). split.
  - apply retrieve_ok. intros i Hi. apply Hb in Hi. lia.
  - apply Forall2_map_self. intros i Hi. apply Hb in Hi.
    destruct (nth_error rows i) as [row|] eqn:Er;
      [|apply nth_error_None in Er; lia].
    exists row. repeat split; simpl.
    + apply nth_error_nth'. lia.
    + unfold cs. now apply cosine_similarities_nth.
Qed.

Lemma entries_pair_row_score_with_global_text_witness :
  exists l,
    retrieve_relevant_documents unit_query 1 (index_of orthogonal_rows)
    = (index_of orthogonal_rows, inr l)
    /\ Forall2
         (fun i e =>
            exists row,
              nth_error orthogonal_rows i = Some row
              /\ nth_error two_docs i = Some (document e)
              /\ score e = cosine row unit_query)
         (top_k (cosine_similarities orthogonal_rows unit_query) 1) l.
Proof.
  apply (@entries_pair_row_score_with_global_text two_docs 2 orthogonal_rows
           unit_query 1).
  - reflexivity.
  - simpl. lia.
Defined.

(** ** Further facts on lists and on the ranking *)

Section MoreListFacts.
Variable A : Type.

Lemma StronglySorted_app_inv (R : A -> A -> Prop) (l1 l2 : list A) :
  StronglySorted R (l1 ++ l2) ->
  forall x y, In x l1 -> In y l2 -> R x y.
Proof.
  induction l1 as [|a l1 IH]; simpl; intros H x y Hx Hy; [contradiction|].
  inversion H as [|? ? Hs Ha]; subst.
  destruct Hx as [<-|Hx].
  - rewrite Forall_forall in Ha. apply Ha, in_or_app. now right.
  - now apply IH.
Qed.

Lemma NoDup_firstn (n : nat) (l : list A) : NoDup l -> NoDup (firstn n l).
Proof.
  intros H. revert n. induction H as [|x l Hx Hl IH]; intros [|n]; simpl;
    try constructor; [|apply IH].
  intros Hin. apply Hx. eapply firstn_incl; eauto.
Qed.

End MoreListFacts.

(** The whole ranking, of which every [top_k] is a prefix. *)
Lemma top_k_prefix (cs : list float) (k : Z) :
  exists m, top_k cs k = firstn m (rev (Np.argsort cs)).
Proof. apply slice_to_firstn. Qed.

Lemma full_ranking_sorted (cs : list float) :
  StronglySorted (ranked cs) (rev (Np.argsort cs)).
Proof. apply (StronglySorted_rev (argsort_sorted cs)). Qed.

Lemma full_ranking_perm (cs : list float) :
  Permutation (rev (Np.argsort cs)) (seq 0 (length cs)).
Proof. rewrite <- (argsort_perm cs). symmetry. apply Permutation_rev. Qed.

Lemma top_k_NoDup (cs : list float) (k : Z) : NoDup (top_k cs k).
Proof.
  destruct (top_k_prefix cs k) as [m ->]. apply NoDup_firstn.
  apply (Permutation_NoDup (Permutation_sym (full_ranking_perm cs))).
  apply seq_NoDup.
Qed.

Lemma top_k_outranks (cs : list float) (k : Z) (i j : nat) :
  In i (top_k cs k) -> j < length cs -> ~ In j (top_k cs k) ->
  ranked cs i j.
Proof.
  destruct (top_k_prefix cs k) as [m ->]. intros Hi Hj Hn.
  pose proof (full_ranking_sorted cs) as Hs.
  rewrite <- (firstn_skipn m (rev (Np.argsort cs))) in Hs.
  eapply StronglySorted_app_inv; [exact Hs|assumption|].
  assert (Hin : In j (rev (Np.argsort cs))).
  { apply (Permutation_in _ (Permutation_sym (full_ranking_perm cs))).
    apply in_seq. lia. }
  rewrite <- (firstn_skipn m (rev (Np.argsort cs))) in Hin.
  apply in_app_or in Hin. tauto.
Qed.

Lemma retrieve_ok_rows (docs : list string) (rows : list (list float))
    (q : list float) (k : Z) :
  length rows <= length docs ->
  retrieve_relevant_documents q k
    {| sample_docs := docs; doc_embeddings := Arr2 (length q) rows |}
  = ({| sample_docs := docs; doc_embeddings := Arr2 (length q) rows |},
     inr (map (entry_of docs (cosine_similarities rows q))
              (top_k (cosine_similarities rows q) k))).
Proof.
  intros Hlen. apply retrieve_ok. intros i Hi. apply top_k_bound in Hi.
  rewrite cosine_similarities_length in Hi. lia.
Qed.

Lemma mapM_entry_fail (cs : list float) (l : list nat) (s : index) :
  (exists i, In i l /\ length (sample_docs s) <= i) ->
  mapM (entry_at cs) l s = (s, inl IndexError).
Proof.
  induction l as [|i l IH]; intros [j [Hj Hbad]]; [contradiction|].
  simpl. unfold bind at 1. rewrite entry_at_run.
  destruct (nth_error (sample_docs s) i) as [d|] eqn:E; [|reflexivity].
  destruct Hj as [<-|Hj].
  - apply nth_error_None in Hbad. congruence.
  - unfold bind. rewrite IH by eauto. reflexivity.
Qed.

(** ** Further properties of [retrieve_relevant_documents] *)

(** X1: the entries returned are the best ones. No row of the index that
    is left out has a greater score than a row that is returned: in
    numpy's order (NaN above every number) the score of a returned row is
    never below the score of a left-out row. *)
Theorem returned_rows_outrank_left_out (docs : list string)
    (rows : list (list float)) (q : list float) (k : Z) :
  length rows <= length docs ->
  retrieve_relevant_documents q k
    {| sample_docs := docs; doc_embeddings := Arr2 (length q) rows |}
  = ({| sample_docs := docs; doc_embeddings := Arr2 (length q) rows |},
     inr (map (entry_of docs (cosine_similarities rows q))
              (top_k (cosine_similarities rows q) k)))
  /\ forall i j,
       In i (top_k (cosine_similarities rows q) k) ->
       j < length rows ->
       ~ In j (top_k (cosine_similarities rows q) k) ->
       Np.lt (nth i (cosine_similarities rows q) nan)
             (nth j (cosine_similarities rows q) nan) = false
       /\ (nth i (cosine_similarities rows q) nan
           <? nth j (cosine_similarities rows q) nan)%float = false.
Proof.
  intros Hlen. split; [now apply retrieve_ok_rows|].
  intros i j Hi Hj Hn.
  assert (Hr : ranked (cosine_similarities rows q) i j).
  { eapply top_k_outranks; eauto. now rewrite cosine_similarities_length. }
  destruct Hr as [Hr _]. split; [exact Hr|].
  now apply FloatFacts.lt_false_ltb.
Qed.

Lemma returned_rows_outrank_left_out_witness :
  retrieve_relevant_documents unit_query 1 (index_of orthogonal_rows)
  = (index_of orthogonal_rows,
     inr (map (entry_of two_docs
                 (cosine_similarities orthogonal_rows unit_query))
              (top_k (cosine_similarities orthogonal_rows unit_query) 1)))
  /\ forall i j,
       In i (top_k (cosine_similarities orthogonal_rows unit_query) 1) ->
       j < length orthogonal_rows ->
       ~ In j (top_k (cosine_similarities orthogonal_rows unit_query) 1) ->
       Np.lt (nth i (cosine_similarities orthogonal_rows unit_query) nan)
             (nth j (cosine_similarities orthogonal_rows unit_query) nan)
       = false
       /\ (nth i (cosine_similarities orthogonal_rows unit_query) nan
           <? nth j (cosine_similarities orthogonal_rows unit_query) nan)%float
          = false.
Proof.
  apply (@returned_rows_outrank_left_out two_docs orthogonal_rows unit_query 1).
  simpl. lia.
Defined.

(** X2: the result for a smaller k is the beginning of the result for a
    larger k: raising k only appends entries. *)
Theorem smaller_k_result_is_prefix (docs : list string)
    (rows : list (list float)) (q : list float) (k k' : Z) :
  length rows <= length docs ->
  (0 <= k <= k')%Z ->
  exists l l',
    retrieve_relevant_documents q k
      {| sample_docs := docs; doc_embeddings := Arr2 (length q) rows |}
    = ({| sample_docs := docs; doc_embeddings := Arr2 (length q) rows |}, inr l)
    /\ retrieve_relevant_documents q k'
         {| sample_docs := docs; doc_embeddings := Arr2 (length q) rows |}
       = ({| sample_docs := docs; doc_embeddings := Arr2 (length q) rows |},
          inr l')
    /\ l = firstn (Z.to_nat k) l'.
Proof.
  intros Hlen Hk.
  set (cs := cosine_similarities rows q).
  exists (map (entry_of docs cs) (top_k cs k)),
         (map (entry_of docs cs) (top_k cs k')).
  repeat split; try now apply retrieve_ok_rows.
  rewrite firstn_map. f_equal.
  unfold top_k, Np.slice_to.
  destruct (Z.leb_spec 0 k); [|lia]. destruct (Z.leb_spec 0 k'); [|lia].
  rewrite firstn_firstn. f_equal. lia.
Qed.

Lemma smaller_k_result_is_prefix_witness :
  exists l l',
    retrieve_relevant_documents unit_query 1 (index_of orthogonal_rows)
    = (index_of orthogonal_rows, inr l)
    /\ retrieve_relevant_documents unit_query 2 (index_of orthogonal_rows)
       = (index_of orthogonal_rows, inr l')
    /\ l = firstn (Z.to_nat 1) l'.
Proof.
  apply (@smaller_k_result_is_prefix two_docs orthogonal_rows unit_query 1 2).
  - simpl. lia.
  - lia.
Defined.

(** X3: a negative k does not fail and does not return nothing: the slice
    [[:k]] drops the last -k entries of the whole ranking, so the call
    returns the record count minus -k best entries (none when -k is at
    least the record count). *)
Theorem negative_k_drops_worst_entries (docs : list string)
    (rows : list (list float)) (q : list float) (k : Z) :
  length rows <= length docs ->
  (k < 0)%Z ->
  exists l l',
    retrieve_relevant_documents q k
      {| sample_docs := docs; doc_embeddings := Arr2 (length q) rows |}
    = ({| sample_docs := docs; doc_embeddings := Arr2 (length q) rows |}, inr l)
    /\ retrieve_relevant_documents q (Z.of_nat (length rows))
         {| sample_docs := docs; doc_embeddings := Arr2 (length q) rows |}
       = ({| sample_docs := docs; doc_embeddings := Arr2 (length q) rows |},
          inr l')
    /\ length l' = length rows
    /\ l = firstn (length rows - Z.to_nat (- k)) l'
    /\ length l = length rows - Z.to_nat (- k).
Proof.
  intros Hlen Hk.
  set (cs := cosine_similarities rows q).
  assert (Hcs : length cs = length rows) by apply cosine_similarities_length.
  assert (Hfull : length (rev (Np.argsort cs)) = length rows).
  { now rewrite (Permutation_length (full_ranking_perm cs)), length_seq. }
  assert (Hall : top_k cs (Z.of_nat (length rows)) = rev (Np.argsort cs)).
  { unfold top_k, Np.slice_to.
    destruct (Z.leb_spec 0 (Z.of_nat (length rows))); [|lia].
    apply firstn_all2. lia. }
  assert (Hneg : top_k cs k
                 = firstn (length rows - Z.to_nat (- k)) (rev (Np.argsort cs))).
  { unfold top_k, Np.slice_to. destruct (Z.leb_spec 0 k); [lia|].
    now rewrite Hfull. }
  exists (map (entry_of docs cs) (top_k cs k)),
         (map (entry_of docs cs) (top_k cs (Z.of_nat (length rows)))).
  repeat split; try now apply retrieve_ok_rows.
  - now rewrite length_map, Hall.
  - now rewrite firstn_map, Hall, Hneg.
  - rewrite length_map, Hneg, length_firstn, Hfull. lia.
Qed.

Lemma negative_k_drops_worst_entries_witness :
  exists l l',
    retrieve_relevant_documents unit_query (-1) (index_of orthogonal_rows)
    = (index_of orthogonal_rows, inr l)
    /\ retrieve_relevant_documents unit_query
         (Z.of_nat (length orthogonal_rows)) (index_of orthogonal_rows)
       = (index_of orthogonal_rows, inr l')
    /\ length l' = length orthogonal_rows
    /\ l = firstn (length orthogonal_rows - Z.to_nat (- (-1))) l'
    /\ length l = length orthogonal_rows - Z.to_nat (- (-1)).
Proof.
  apply (@negative_k_drops_worst_entries two_docs orthogonal_rows unit_query
           (-1)).
  - simpl. lia.
  - lia.
Defined.

(** X4: with a query of the dimension of the index, the call raises
    IndexError exactly when one of the selected rows has no text in
    [sample_docs], that is when its row index is not below the length of the
    list; rows beyond the list that are not selected do no harm. *)
Theorem index_error_iff_selected_row_has_no_text (docs : list string)
    (rows : list (list float)) (q : list float) (k : Z) :
  retrieve_relevant_documents q k
    {| sample_docs := docs; doc_embeddings := Arr2 (length q) rows |}
  = ({| sample_docs := docs; doc_embeddings := Arr2 (length q) rows |},
     inl IndexError)
  <-> exists i, In i (top_k (cosine_similarities rows q) k)
                /\ length docs <= i.
Proof.
  set (cs := cosine_similarities rows q). split.
  - intros Hrun.
    destruct (Forall_Exists_dec (fun i => i < length docs)
                (fun i => lt_dec i (length docs)) (top_k cs k)) as [Hall|Hex].
    + rewrite Forall_forall in Hall.
      rewrite (retrieve_ok docs rows q k Hall) in Hrun. discriminate.
    + apply Exists_exists in Hex. destruct Hex as [i [Hi Hbad]].
      exists i. split; [assumption|lia].
  - intros Hex. unfold retrieve_relevant_documents, bind, gets. simpl.
    rewrite Nat.eqb_refl. now apply mapM_entry_fail.
Qed.

(** X5: no row of the index is returned twice: the entries of a result are
    taken at pairwise distinct row indices, all of them rows of the index. *)
Theorem no_row_returned_twice (docs : list string)
    (rows : list (list float)) (q : list float) (k : Z) :
  length rows <= length docs ->
  retrieve_relevant_documents q k
    {| sample_docs := docs; doc_embeddings := Arr2 (length q) rows |}
  = ({| sample_docs := docs; doc_embeddings := Arr2 (length q) rows |},
     inr (map (entry_of docs (cosine_similarities rows q))
              (top_k (cosine_similarities rows q) k)))
  /\ NoDup (top_k (cosine_similarities rows q) k)
  /\ Forall (fun i => i < length rows) (top_k (cosine_similarities rows q) k).
Proof.
  intros Hlen. repeat split.
  - now apply retrieve_ok_rows.
  - apply top_k_NoDup.
  - apply Forall_forall. intros i Hi. apply top_k_bound in Hi.
    now rewrite cosine_similarities_length in Hi.
Qed.

Lemma no_row_returned_twice_witness :
  retrieve_relevant_documents unit_query 2 (index_of equal_rows)
  = (index_of equal_rows,
     inr (map (entry_of two_docs (cosine_similarities equal_rows unit_query))
              (top_k (cosine_similarities equal_rows unit_query) 2)))
  /\ NoDup (top_k (cosine_similarities equal_rows unit_query) 2)
  /\ Forall (fun i => i < length equal_rows)
            (top_k (cosine_similarities equal_rows unit_query) 2).
Proof.
  apply (@no_row_returned_twice two_docs equal_rows unit_query 2).
  simpl. lia.
Defined.

(** ** Symmetry of the products *)

Lemma float_mul_comm (x y : float) : (x * y)%float = (y * x)%float.
Proof.
  apply Prim2SF_inj. rewrite !mul_spec. unfold SF64mul, SFmul.
  destruct (Prim2SF x) as [sx|sx| |sx mx ex],
           (Prim2SF y) as [sy|sy| |sy my ey];
    try reflexivity; rewrite (xorb_comm sx sy); try reflexivity.
  now rewrite (Pos.mul_comm mx my), (Z.add_comm ex ey).
Qed.

Lemma dot_from_comm (a b : list float) (acc : float) :
  fold_left (fun acc p => (acc + fst p * snd p)%float) (combine a b) acc
  = fold_left (fun acc p => (acc + fst p * snd p)%float) (combine b a) acc.
Proof.
  revert b acc. induction a as [|x a IH]; intros [|y b] acc; simpl;
    try reflexivity.
  rewrite (float_mul_comm x y). apply IH.
Qed.

Lemma dot_comm (a b : list float) : Np.dot a b = Np.dot b a.
Proof. apply dot_from_comm. Qed.

(** ** The pairwise cell *)

Lemma combine_map_self (A B : Type) (h : A -> B) (l : list A) :
  combine l (map h l) = map (fun x => (x, h x)) l.
Proof. induction l as [|x l IH]; simpl; [reflexivity|now rewrite IH]. Qed.

Lemma pairwise_entry (D : nat) (rows : list (list float)) (i j : nat)
    (ri rj : list float) :
  nth_error rows i = Some ri ->
  nth_error rows j = Some rj ->
  exists m row,
    pairwise_cosine_similarities (Arr2 D rows) = inr m
    /\ nth_error m j = Some row
    /\ nth_error row i
       = Some (Np.dot rj ri / (Np.norm ri * Np.norm ri))%float.
Proof.
  intros Hi Hj. unfold pairwise_cosine_similarities.
  rewrite map_map, combine_map_self.
  eexists. eexists. split; [reflexivity|]. split.
  - rewrite nth_error_map, Hj. reflexivity.
  - rewrite nth_error_map, nth_error_map, Hi. reflexivity.
Qed.

(** X8: for two rows whose computed norms are equal, the pairwise matrix
    holds the same value at [j][i] and at [i][j], so the upper triangle that
    the cell prints says all there is about the pair. *)
Theorem pairwise_symmetric_on_equal_norms (D : nat)
    (rows : list (list float)) (i j : nat) (ri rj : list float) :
  nth_error rows i = Some ri ->
  nth_error rows j = Some rj ->
  Np.norm rj = Np.norm ri ->
  exists m row_i row_j x,
    pairwise_cosine_similarities (Arr2 D rows) = inr m
    /\ nth_error m i = Some row_i
    /\ nth_error m j = Some row_j
    /\ nth_error row_j i = Some x
    /\ nth_error row_i j = Some x.
Proof.
  intros Hi Hj Hn.
  destruct (@pairwise_entry D rows i j ri rj Hi Hj)
    as [m [row_j [Hm [Hrj Hx]]]].
  destruct (@pairwise_entry D rows j i rj ri Hj Hi)
    as [m' [row_i [Hm' [Hri Hy]]]].
  assert (m' = m) by congruence. subst m'.
  exists m, row_i, row_j. eexists. repeat split; try eassumption.
  rewrite Hy. now rewrite (dot_comm ri rj), Hn.
Qed.

Lemma pairwise_symmetric_on_equal_norms_witness :
  exists m row_i row_j x,
    pairwise_cosine_similarities (Arr2 2 orthogonal_rows) = inr m
    /\ nth_error m 0 = Some row_i
    /\ nth_error m 1 = Some row_j
    /\ nth_error row_j 0 = Some x
    /\ nth_error row_i 1 = Some x.
Proof.
  apply (@pairwise_symmetric_on_equal_norms 2 orthogonal_rows 0 1
           [0; 1]%float [1; 0]%float); reflexivity.
Defined.

(** ** The search cells *)

Lemma array_uniform (D : nat) (r : list float) (l : list (list float)) :
  Forall (fun r' => length r' = D) (r :: l) ->
  Np.array (r :: l) = inr (Arr2 D (r :: l)).
Proof.
  intros H. inversion H as [|? ? Hr Hl]; subst. unfold Np.array.
  assert (E : forallb (fun r' => Nat.eqb (length r') (length r)) (r :: l)
              = true).
  { apply forallb_forall. intros r' Hr'. rewrite Forall_forall in H.
    apply Nat.eqb_eq. now rewrite (H r' Hr'). }
  now rewrite E.
Qed.

Lemma ranking_non_increasing (docs : list string) (cs : list float) (k : Z) :
  StronglySorted non_increasing (map (entry_of docs cs) (top_k cs k)).
Proof.
  apply StronglySorted_map.
  eapply StronglySorted_impl; [|apply top_k_ranked].
  intros i j _ _ [H _]. unfold non_increasing, entry_of; simpl. split.
  - now apply FloatFacts.lt_false_ltb.
  - now apply FloatFacts.lt_false_leb.
Qed.

(** X9: the search cells run through when the provider embeds each text on
    its own into vectors of one dimension and there is at least one
    document: for a non-negative k the search returns min(k, number of
    documents) entries, each with a text of [sample_docs], listed with no
    score below a later one. *)
Theorem search_returns_ranked_documents
    (embedding_function : list string -> list (list float))
    (embed_one : string -> list float) (D : nat) (docs : list string)
    (query : string) (k : Z) :
  (forall l, embedding_function l = map embed_one l) ->
  (forall d, length (embed_one d) = D) ->
  docs <> [] ->
  (0 <= k)%Z ->
  exists l,
    relevant_docs embedding_function docs query k = inr l
    /\ length l = Nat.min (Z.to_nat k) (length docs)
    /\ Forall (fun e => In (document e) docs) l
    /\ StronglySorted non_increasing l.
Proof.
  intros Hone HD Hne Hk.
  destruct docs as [|d docs]; [congruence|].
  set (rows := map embed_one (d :: docs)).
  set (q := embed_one query).
  set (cs := cosine_similarities rows q).
  assert (Hrows : length rows = length (d :: docs)) by apply length_map.
  assert (Hcs : length cs = length rows) by apply cosine_similarities_length.
  assert (Hdocs : embed_documents embedding_function (d :: docs)
                  = inr (Arr2 (length q) rows)).
  { unfold embed_documents. rewrite Hone. fold rows. unfold rows. simpl.
    apply array_uniform. unfold q. rewrite HD.
    apply Forall_forall. intros r Hr.
    change (In r (map embed_one (d :: docs))) in Hr.
    apply in_map_iff in Hr. destruct Hr as [x [<- _]]. apply HD. }
  assert (Hq : embed_query embedding_function query = inr q).
  { unfold embed_query. rewrite Hone.
    change (map embed_one [query]) with [q]. now rewrite array_singleton. }
  exists (map (entry_of (d :: docs) cs) (top_k cs k)).
  unfold relevant_docs. rewrite Hdocs, Hq. repeat split.
  - unfold cs. rewrite retrieve_ok_rows by lia. reflexivity.
  - rewrite length_map, top_k_length by assumption. now rewrite Hcs, Hrows.
  - apply Forall_forall. intros e He. apply in_map_iff in He.
    destruct He as [i [<- Hi]]. apply top_k_bound in Hi.
    unfold entry_of. cbn [document]. apply nth_In. lia.
  - apply ranking_non_increasing.
Qed.

Lemma search_returns_ranked_documents_witness :
  exists l,
    relevant_docs length_provider three_docs "hog" 2 = inr l
    /\ length l = Nat.min (Z.to_nat 2) (length three_docs)
    /\ Forall (fun e => In (document e) three_docs) l
    /\ StronglySorted non_increasing l.
Proof.
  apply (@search_returns_ranked_documents length_provider
           (fun d => if Nat.eqb (String.length d) 3 then [1; 0]%float
                     else [0; 1]%float) 2 three_docs "hog" 2).
  - reflexivity.
  - intros d. destruct (Nat.eqb (String.length d) 3); reflexivity.
  - discriminate.
  - lia.
Defined.

(** X10: a search over no document cannot succeed. When the provider embeds
    the empty list as no row, [embed_documents] yields the empty
    one-dimensional array, and whatever the query and k the search raises
    (in the matrix product, in the norm along axis 1, or already in
    [embed_query]) instead of returning an empty list. *)
Theorem search_of_no_document_raises
    (embedding_function : list string -> list (list float))
    (query : string) (k : Z) :
  embedding_function [] = [] ->
  embed_documents embedding_function [] = inr (Arr1 [])
  /\ exists e, relevant_docs embedding_function [] query k = inl e.
Proof.
  intros Hnil. unfold relevant_docs, embed_documents. rewrite Hnil. simpl.
  split; [reflexivity|].
  destruct (embed_query embedding_function query) as [e|q]; [now exists e|].
  unfold retrieve_relevant_documents, bind, gets. simpl.
  destruct (length q); simpl; eauto.
Qed.

Lemma search_of_no_document_raises_witness :
  embed_documents length_provider [] = inr (Arr1 [])
  /\ exists e, relevant_docs length_provider [] "hog" 2 = inl e.
Proof.
  apply (@search_of_no_document_raises length_provider "hog" 2).
  reflexivity.
Defined.

(** ** A NaN score in the index *)

Lemma lt_nan_false (a b : float) :
  is_nan b = true -> Np.lt a b = false -> is_nan a = true.
Proof.
  unfold Np.lt, is_nan. intros Hb H.
  apply orb_false_elim in H. destruct H as [_ H].
  rewrite Hb in H. simpl in H. now rewrite H.
Qed.

(** X12: one row whose similarity to the query is NaN takes the first place
    of every result: as soon as k is at least 1, the first entry returned
    has a NaN score, whatever the scores of the other rows. *)
Theorem nan_row_takes_first_place (docs : list string)
    (rows : list (list float)) (q : list float) (k : Z) (i : nat) :
  length rows <= length docs ->
  i < length rows ->
  is_nan (nth i (cosine_similarities rows q) nan) = true ->
  (1 <= k)%Z ->
  exists e l,
    retrieve_relevant_documents q k
      {| sample_docs := docs; doc_embeddings := Arr2 (length q) rows |}
    = ({| sample_docs := docs; doc_embeddings := Arr2 (length q) rows |},
       inr (e :: l))
    /\ is_nan (score e) = true.
Proof.
  intros Hlen Hi Hnan Hk.
  set (cs := cosine_similarities rows q) in *.
  assert (Hcs : length cs = length rows) by apply cosine_similarities_length.
  pose proof (full_ranking_sorted cs) as Hs.
  assert (Hin : In i (rev (Np.argsort cs))).
  { apply (Permutation_in _ (Permutation_sym (full_ranking_perm cs))).
    apply in_seq. lia. }
  assert (Htop : top_k cs k = firstn (Z.to_nat k) (rev (Np.argsort cs))).
  { unfold top_k, Np.slice_to. destruct (Z.leb_spec 0 k); [reflexivity|lia]. }
  destruct (rev (Np.argsort cs)) as [|h t] eqn:E; [contradiction|].
  destruct (Z.to_nat k) as [|m] eqn:Ek; [lia|].
  exists (entry_of docs cs h), (map (entry_of docs cs) (firstn m t)). split.
  - unfold cs. rewrite retrieve_ok_rows by assumption. fold cs.
    now rewrite Htop.
  - unfold entry_of. cbn [score].
    destruct Hin as [->|Hin]; [assumption|].
    inversion Hs as [|? ? _ Hall]; subst.
    rewrite Forall_forall in Hall. destruct (Hall i Hin) as [Hlt _].
    eapply lt_nan_false; eassumption.
Qed.

Lemma nan_row_takes_first_place_witness :
  exists e l,
    retrieve_relevant_documents unit_query 1 (index_of zero_first_rows)
    = (index_of zero_first_rows, inr (e :: l))
    /\ is_nan (score e) = true.
Proof.
  apply (@nan_row_takes_first_place two_docs zero_first_rows unit_query 1 0).
  - simpl. lia.
  - simpl. lia.
  - reflexivity.
  - lia.
Defined.
